(** * Electrical engineering calculator: the formulas and the CSV export of [app.py]

    The pages of [app.py] read a few numbers from widgets, evaluate a
    closed formula and show the result; two of them export a mapping of
    results as CSV.  Each page is embedded as a function of the values
    its widgets return.  Python's [float] is embedded as the rationals
    [Q]: every statement below is about exact arithmetic, and the
    rounding of binary64 is outside the model.  What Python does beyond
    arithmetic is kept: [/] raises [ZeroDivisionError] on a zero
    divisor, a branch that is not taken binds nothing, text is a
    sequence of code points and [encode] can fail.

    Which inputs make a page raise depends on the range of binary64:
    a square underflows to zero or overflows.  The two pages whose
    failures are stated are therefore embedded a second time, on
    binary64 itself, in [Binary64]. *)

From Stdlib Require Floats.
From Stdlib Require Import Strings.Byte Strings.String DecimalString.
From Stdlib Require Import QArith Qabs Qround Qfield Lqa.
From Stdlib Require Import ZArith NArith Lia Bool List.
Import ListNotations.

(** ** Python expressions that can raise *)

Inductive exn : Type :=
| ZeroDivisionError
| UnicodeEncodeError
| OverflowError.

Inductive result (A : Type) : Type :=
| Ok (a : A)
| Raise (e : exn).

Arguments Ok {A} a.
Arguments Raise {A} e.

Definition bind {A B : Type} (r : result A) (k : A -> result B) : result B :=
  match r with
  | Ok a => k a
  | Raise e => Raise e
  end.

Notation "x <- r ;; k" := (bind r (fun x => k))
  (at level 61, r at next level, right associativity).

(** ** Text and bytes

    A Python [str] is a sequence of code points. *)

Definition str : Type := list N.

Definition byte_of_N (n : N) : byte :=
  match Byte.of_N n with
  | Some b => b
  | None => Byte.x00
  end.

Open Scope N_scope.

(** [s.encode("utf-8")], one code point: surrogates cannot be encoded. *)
Definition utf8_encode_char (c : N) : result (list byte) :=
  if c <? 0x80 then Ok [byte_of_N c]
  else if c <? 0x800 then
    Ok [byte_of_N (0xC0 + c / 64); byte_of_N (0x80 + c mod 64)]
  else if c <? 0x10000 then
    if (0xD800 <=? c) && (c <? 0xE000) then Raise UnicodeEncodeError
    else Ok [byte_of_N (0xE0 + c / 4096);
             byte_of_N (0x80 + (c / 64) mod 64);
             byte_of_N (0x80 + c mod 64)]
  else if c <? 0x110000 then
    Ok [byte_of_N (0xF0 + c / 262144);
        byte_of_N (0x80 + (c / 4096) mod 64);
        byte_of_N (0x80 + (c / 64) mod 64);
        byte_of_N (0x80 + c mod 64)]
  else Raise UnicodeEncodeError.

Fixpoint utf8_encode (s : str) : result (list byte) :=
  match s with
  | [] => Ok []
  | c :: s' =>
      bs <- utf8_encode_char c ;;
      rest <- utf8_encode s' ;;
      Ok (bs ++ rest)
  end.

(** Decoding: the reading side of a round trip.  Only the shortest
    form of a code point is accepted. *)
Definition continuation (b : byte) : option N :=
  let n := Byte.to_N b in
  if (0x80 <=? n) && (n <? 0xC0) then Some (n - 0x80) else None.

Definition decoded (lo hi c : N) (rest : option str) : option str :=
  if (lo <=? c) && (c <? hi) && negb ((0xD800 <=? c) && (c <? 0xE000))
  then option_map (cons c) rest
  else None.

Fixpoint utf8_decode (bs : list byte) : option str :=
  match bs with
  | [] => Some []
  | b0 :: bs1 =>
      let n0 := Byte.to_N b0 in
      if n0 <? 0x80 then option_map (cons n0) (utf8_decode bs1)
      else if n0 <? 0xC0 then None
      else if n0 <? 0xE0 then
        match bs1 with
        | b1 :: bs2 =>
            match continuation b1 with
            | Some n1 =>
                decoded 0x80 0x800 ((n0 - 0xC0) * 64 + n1) (utf8_decode bs2)
            | None => None
            end
        | _ => None
        end
      else if n0 <? 0xF0 then
        match bs1 with
        | b1 :: b2 :: bs3 =>
            match continuation b1, continuation b2 with
            | Some n1, Some n2 =>
                decoded 0x800 0x10000 ((n0 - 0xE0) * 4096 + n1 * 64 + n2)
                        (utf8_decode bs3)
            | _, _ => None
            end
        | _ => None
        end
      else
        match bs1 with
        | b1 :: b2 :: b3 :: bs4 =>
            match continuation b1, continuation b2, continuation b3 with
            | Some n1, Some n2, Some n3 =>
                decoded 0x10000 0x110000
                        ((n0 - 0xF0) * 262144 + n1 * 4096 + n2 * 64 + n3)
                        (utf8_decode bs4)
            | _, _, _ => None
            end
        | _ => None
        end
  end.

(** A literal of the source file, as the code points it denotes. *)
Definition text (literal : string) : str :=
  match utf8_decode (list_byte_of_string literal) with
  | Some s => s
  | None => []
  end.

Definition scalar_value (c : N) : bool :=
  (c <? 0xD800) || ((0xE000 <=? c) && (c <? 0x110000)).


(** ** CSV *)

Definition comma : N := 44.
Definition dquote : N := 34.
Definition LF : N := 10.
Definition CR : N := 13.

(** [os.name] and [os.linesep]. *)
Inductive os : Type := posix | nt.

Definition linesep (name : os) : str :=
  match name with
  | posix => [LF]
  | nt => [CR; LF]
  end.

(** [csv.writer] with the dialect that [to_csv] passes: a comma as
    delimiter, the double quote as quote character, [QUOTE_MINIMAL],
    [doublequote], no escape character.  A field is quoted when it
    contains the delimiter, the quote character or a character of the
    line terminator. *)
Definition special (lineterminator : str) (c : N) : bool :=
  (c =? comma) || (c =? dquote) || existsb (N.eqb c) lineterminator.

Definition escape (s : str) : str :=
  flat_map (fun c => if c =? dquote then [dquote; dquote] else [c]) s.

Definition quoted (s : str) : str := dquote :: escape s ++ [dquote].

Definition join_append (lineterminator : str) (field : str) : str :=
  if existsb (special lineterminator) field then quoted field else field.

Fixpoint join (lineterminator : str) (fields : list str) : str :=
  match fields with
  | [] => []
  | [field] => join_append lineterminator field
  | field :: fields' =>
      join_append lineterminator field ++ comma :: join lineterminator fields'
  end.

(** [writerow]: a record that came out empty although it has a field
    is written as one quoted empty field. *)
Definition writerow (lineterminator : str) (fields : list str) : str :=
  let rec := join lineterminator fields in
  match fields, rec with
  | _ :: _, [] => quoted [] ++ lineterminator
  | _, _ => rec ++ lineterminator
  end.

(** The reading side: records end at LF, CR or CRLF, fields at commas;
    a field that starts with a quote runs to the next single quote, a
    doubled quote inside standing for one; an empty line is a record
    without fields. *)
Inductive char_class : Type := Comma | DQuote | Lf | Cr | Other.

Definition classify (c : N) : char_class :=
  if c =? comma then Comma
  else if c =? dquote then DQuote
  else if c =? LF then Lf
  else if c =? CR then Cr
  else Other.

(** A field separator or the start of a line terminator. *)
Definition ends_field (c : N) : bool :=
  match classify c with
  | Comma | Lf | Cr => true
  | _ => false
  end.

Inductive reader_state : Type :=
| START_RECORD
| AFTER_CR
| START_FIELD
| IN_FIELD
| IN_QUOTED_FIELD
| QUOTE_IN_QUOTED_FIELD.

(** [rows], [fields] and [field] are kept in reverse. *)
Fixpoint csv_parse (state : reader_state) (rows : list (list str))
  (fields : list str) (field : str) (s : str) {struct s} : list (list str) :=
  match s with
  | [] =>
      match state with
      | START_RECORD | AFTER_CR => rev rows
      | _ => rev (rev (rev field :: fields) :: rows)
      end
  | c :: s' =>
      let add state' := csv_parse state' rows fields (c :: field) s' in
      let in_field :=
        match classify c with
        | Comma => csv_parse START_FIELD rows (rev field :: fields) [] s'
        | Lf =>
            csv_parse START_RECORD (rev (rev field :: fields) :: rows) [] [] s'
        | Cr =>
            csv_parse AFTER_CR (rev (rev field :: fields) :: rows) [] [] s'
        | _ => add IN_FIELD
        end in
      let start_field :=
        match classify c with
        | DQuote => csv_parse IN_QUOTED_FIELD rows fields field s'
        | _ => in_field
        end in
      let start_record :=
        match classify c with
        | Lf => csv_parse START_RECORD (rev fields :: rows) [] [] s'
        | Cr => csv_parse AFTER_CR (rev fields :: rows) [] [] s'
        | _ => start_field
        end in
      match state with
      | START_RECORD => start_record
      | AFTER_CR =>
          match classify c with
          | Lf => csv_parse START_RECORD rows fields field s'
          | _ => start_record
          end
      | START_FIELD => start_field
      | IN_FIELD => in_field
      | IN_QUOTED_FIELD =>
          match classify c with
          | DQuote => csv_parse QUOTE_IN_QUOTED_FIELD rows fields field s'
          | _ => add IN_QUOTED_FIELD
          end
      | QUOTE_IN_QUOTED_FIELD =>
          match classify c with
          | DQuote => add IN_QUOTED_FIELD
          | _ => in_field
          end
      end
  end.

Definition csv_reader (s : str) : list (list str) :=
  csv_parse START_RECORD [] [] [] s.

(** A carriage return in a field is quoted only if the line terminator
    has one. *)
Definition no_bare_cr (lineterminator : str) (field : str) : bool :=
  forallb (fun c => negb (c =? CR) || special lineterminator c) field.

(** ** Result export *)

(** The values of a result mapping. *)
Inductive value : Type :=
| VInt (n : Z)
| VFloat (x : Q)
| VStr (s : str).

(** [str(n)] raises [ValueError] for an integer of more than 4300
    digits: the statements about the export leave such integers out. *)
Definition small_int (v : value) : bool :=
  match v with
  | VInt n => (Z.abs n <? 10 ^ 4300)%Z
  | _ => true
  end.

(** [pd.DataFrame([data_dict])]: one column per key, in the order of
    the dictionary, and one row. *)
Record frame : Type := {
  columns : list str;
  data : list (list value)
}.

Definition DataFrame (data_dict : list (str * value)) : frame :=
  {| columns := map fst data_dict; data := [map snd data_dict] |}.

Section Exporter.

(** The platform, and the decimal string of a float ([repr], the
    shortest string that reads back as the same binary64, which a
    rational does not determine). *)
Variable os_name : os.
Variable float_repr : Q -> str.

Definition to_str (v : value) : str :=
  match v with
  | VInt n => text (NilZero.string_of_int (Z.to_int n))
  | VFloat x => float_repr x
  | VStr s => s
  end.

(** [df.to_csv(index=False)]: the header, then the rows. *)
Definition to_csv (df : frame) : str :=
  writerow (linesep os_name) (columns df) ++
  flat_map (fun row => writerow (linesep os_name) (map to_str row)) (data df).

Definition export_csv (data_dict : list (str * value)) : result (list byte) :=
  let df := DataFrame data_dict in
  utf8_encode (to_csv df).

End Exporter.


Close Scope N_scope.
Open Scope Q_scope.

(** ** Arithmetic *)

(** [x / y] on floats. *)
Definition truediv (x y : Q) : result Q :=
  if Qeq_bool y 0 then Raise ZeroDivisionError else Ok (x / y).

(** [x ** n] for a literal exponent [n >= 0]. *)
Definition pow (x : Q) (n : Z) : Q := x ^ n.

(** [round(x, ndigits)]: to the nearest multiple of [10 ** -ndigits],
    ties to the even one. *)
Definition round_half_even (x : Q) : Z :=
  let fl := Qfloor x in
  let frac := x - inject_Z fl in
  match Qcompare frac (1 # 2) with
  | Lt => fl
  | Gt => (fl + 1)%Z
  | Eq => if Z.even fl then fl else (fl + 1)%Z
  end.

Definition round (x : Q) (ndigits : Z) : Q :=
  let scale := 10 ^ ndigits in
  inject_Z (round_half_even (x * scale)) / scale.

(** ** Widgets

    [st.number_input(..., min_value=m)] only returns values [>= m];
    [st.slider(label, lo, hi, ...)] only returns values in [[lo, hi]]. *)

Definition number_input (min_value : option Q) (v : Q) : bool :=
  match min_value with
  | None => true
  | Some m => Qle_bool m v
  end.


(** ** Standard converter *)

(** The two options of the select box: the length conversion and the
    mass conversion. *)
Inductive standard_unit : Type :=
| Meters_to_Kilometers
| Kilograms_to_Grams.

(** [render_standard_converter]: the value bound to [result]. *)
Definition render_standard_converter (value : Q) (unit : standard_unit)
  : result Q :=
  match unit with
  | Meters_to_Kilometers => truediv value 1000
  | Kilograms_to_Grams => Ok (value * 1000)
  end.

(** ** Temperature converter *)

(** The two directions of the select box. *)
Inductive temperature_unit : Type :=
| Celsius_to_Fahrenheit
| Fahrenheit_to_Celsius.

Definition render_temperature_converter (temp : Q) (unit : temperature_unit)
  : result Q :=
  match unit with
  | Celsius_to_Fahrenheit =>
      q <- truediv (temp * 9) 5 ;;
      Ok (q + 32)
  | Fahrenheit_to_Celsius =>
      truediv ((temp - 32) * 5) 9
  end.

(** ** Advanced per-unit calculator *)

Record per_unit : Type := {
  Z_base : Q;
  Y_base : Q;
  R_total : Q;
  X_total : Q;
  B_total : Q;
  R_pu : Q;
  X_pu : Q;
  B_pu : Q
}.

Definition render_enhanced_per_unit
  (base_mva base_kv length R_per X_per B_per : Q) : result per_unit :=
  zb <- truediv (pow base_kv 2) base_mva ;;
  yb <- truediv 1 zb ;;
  let rt := R_per * length in
  let xt := X_per * length in
  let bt := B_per * length in
  rp <- truediv rt zb ;;
  xp <- truediv xt zb ;;
  bp <- truediv bt yb ;;
  Ok {| Z_base := zb; Y_base := yb;
        R_total := rt; X_total := xt; B_total := bt;
        R_pu := rp; X_pu := xp; B_pu := bp |}.

(** What the page computes when no division raises. *)
Definition per_unit_values
  (base_mva base_kv length R_per X_per B_per : Q) : per_unit :=
  let zb := pow base_kv 2 / base_mva in
  {| Z_base := zb; Y_base := 1 / zb;
     R_total := R_per * length;
     X_total := X_per * length;
     B_total := B_per * length;
     R_pu := R_per * length / zb;
     X_pu := X_per * length / zb;
     B_pu := B_per * length / (1 / zb) |}.

(** ** ZIP load model *)

(** [y[-1] = v] on a list. *)
Definition set_last (y : list Q) (v : Q) : list Q :=
  match y with
  | [] => []
  | _ :: _ => removelast y ++ [v]
  end.

(** [np.linspace(start, stop, num)], with [endpoint=True]:
    [arange(0, num) * step + start] where [step = (stop - start) / (num - 1)],
    and the last sample overwritten with [stop]. *)
Definition np_linspace (start stop : Q) (num : nat) : list Q :=
  match num with
  | O => []
  | S O => [0 * (stop - start) + start]
  | S div =>
      let step := (stop - start) / inject_Z (Z.of_nat div) in
      let y := map (fun i => inject_Z (Z.of_nat i) * step + start) (seq 0 num) in
      set_last y stop
  end.

(** [P] and [Q] divide the scalar [V] by [V0] and raise on [V0 = 0];
    the curves divide the array [Vs] by [V0], which numpy does without
    raising, and are only reached once the scalar divisions went
    through. *)
Record zip_load : Type := {
  zip_c : Q;
  zip_f : Q;
  zip_P : Q;
  zip_Q : Q;
  zip_Vs : list Q;
  zip_Pcurve : list Q;
  zip_Qcurve : list Q
}.

Definition render_zip_load_model (P0 Q0 V0 a b d e V : Q) : result zip_load :=
  let c := 1 - a - b in
  let f := 1 - d - e in
  x1 <- truediv V V0 ;;
  x2 <- truediv V V0 ;;
  let P := P0 * (a * pow x1 2 + b * x2 + c) in
  y1 <- truediv V V0 ;;
  y2 <- truediv V V0 ;;
  let Q := Q0 * (d * pow y1 2 + e * y2 + f) in
  let Vs := np_linspace 0.5 1.5 200 in
  let Pcurve := map (fun v => P0 * (a * pow (v / V0) 2 + b * (v / V0) + c)) Vs in
  let Qcurve := map (fun v => Q0 * (d * pow (v / V0) 2 + e * (v / V0) + f)) Vs in
  Ok {| zip_c := c; zip_f := f; zip_P := P; zip_Q := Q;
        zip_Vs := Vs; zip_Pcurve := Pcurve; zip_Qcurve := Qcurve |}.

(** What the page computes when [V / V0] does not raise. *)
Definition zip_values (P0 Q0 V0 a b d e V : Q) : zip_load :=
  let c := 1 - a - b in
  let f := 1 - d - e in
  let Vs := np_linspace 0.5 1.5 200 in
  {| zip_c := c; zip_f := f;
     zip_P := P0 * (a * pow (V / V0) 2 + b * (V / V0) + c);
     zip_Q := Q0 * (d * pow (V / V0) 2 + e * (V / V0) + f);
     zip_Vs := Vs;
     zip_Pcurve :=
       map (fun v => P0 * (a * pow (v / V0) 2 + b * (v / V0) + c)) Vs;
     zip_Qcurve :=
       map (fun v => Q0 * (d * pow (v / V0) 2 + e * (v / V0) + f)) Vs |}.


(** ** Fixed-point formatting *)




(** ** The result mappings *)

Section Results.

(** The builtin [round(x, ndigits)] on floats. *)
Variable py_round : Q -> Z -> Q.

(** [results] of the per-unit page, for the values [r] it computed. *)
Definition per_unit_results (base_mva base_kv length : Q) (r : per_unit)
  : list (str * value) :=
  [(text "Base MVA", VFloat base_mva);
   (text "Base kV", VFloat base_kv);
   (text "Length (km)", VFloat length);
   (text "R_total (Ω)", VFloat (py_round (R_total r) 6));
   (text "X_total (Ω)", VFloat (py_round (X_total r) 6));
   (text "B_total (S)", VFloat (py_round (B_total r) 6));
   (text "R_pu", VFloat (py_round (R_pu r) 6));
   (text "X_pu", VFloat (py_round (X_pu r) 6));
   (text "B_pu", VFloat (py_round (B_pu r) 6))].


End Results.

(** ASCII other than the comma, the double quote and the line breaks:
    what the decimal string of a float is made of. *)
Definition plain_ascii (c : N) : bool :=
  (c <? 128)%N && negb (c =? comma)%N && negb (c =? dquote)%N &&
  negb (c =? CR)%N && negb (c =? LF)%N.

(** * The pages on binary64

    [float] is IEEE 754 binary64 with round to nearest even, which is
    Python's [float]; [+], [*] and [/] on it are the machine's. *)

Module Binary64.

Import Floats.
Local Open Scope float_scope.
Set Warnings "-inexact-float".

(** [x / y]: a zero divisor of either sign raises; an overflowing
    quotient is infinite and raises nothing. *)
Definition truediv (x y : float) : result float :=
  if y =? 0 then Raise ZeroDivisionError else Ok (x / y).

(** [st.number_input(..., min_value=m)] only returns values [>= m]. *)
Definition number_input (min_value : option float) (v : float) : bool :=
  match min_value with
  | None => true
  | Some m => m <=? v
  end.

(** The square of [x], correctly rounded. *)
Definition square (x : float) : float := x * x.

Section Libm.

(** The C library's [pow(x, 2.0)].  It is not always the correctly
    rounded square; it is where the square is a binary64 number, and
    where the square underflows to zero or overflows. *)
Variable libm_pow2 : float -> float.

(** [x ** 2]: the interpreter answers for NaN, the infinities, zero
    and one itself, calls [pow] on the absolute value otherwise, and
    raises [OverflowError] when [pow] returns an infinity. *)
Definition pow2 (x : float) : result float :=
  if is_nan x then Ok x
  else if is_infinity x then Ok infinity
  else if x =? 0 then Ok 0
  else if abs x =? 1 then Ok 1
  else
    let ix := libm_pow2 (abs x) in
    if is_infinity ix then Raise OverflowError else Ok ix.

(** [render_bmi_calculator]: [None] is the page that shows nothing,
    [bmi] being bound only under the guard [if height > 0]. *)
Definition render_bmi_calculator (weight height : float)
  : result (option float) :=
  if 0 <? height then
    h2 <- pow2 height ;;
    bmi <- truediv weight h2 ;;
    Ok (Some bmi)
  else Ok None.

Record per_unit : Type := {
  Z_base : float;
  Y_base : float;
  R_total : float;
  X_total : float;
  B_total : float;
  R_pu : float;
  X_pu : float;
  B_pu : float
}.

(** [render_enhanced_per_unit], lines 83 to 92. *)
Definition render_enhanced_per_unit
  (base_mva base_kv length R_per X_per B_per : float) : result per_unit :=
  kv2 <- pow2 base_kv ;;
  zb <- truediv kv2 base_mva ;;
  yb <- truediv 1 zb ;;
  let rt := R_per * length in
  let xt := X_per * length in
  let bt := B_per * length in
  rp <- truediv rt zb ;;
  xp <- truediv xt zb ;;
  bp <- truediv bt yb ;;
  Ok {| Z_base := zb; Y_base := yb;
        R_total := rt; X_total := xt; B_total := bt;
        R_pu := rp; X_pu := xp; B_pu := bp |}.

End Libm.

(** The ranges of the three widgets with a [min_value]. *)
Definition per_unit_widgets (base_mva base_kv length : float) : bool :=
  number_input (Some 0.1) base_mva &&
  number_input (Some 0.1) base_kv &&
  number_input (Some 0) length.

End Binary64.

(** * Properties *)

(** ** Division *)

Lemma truediv_ok (x y : Q) : ~ y == 0 -> truediv x y = Ok (x / y).
Proof.
  intros Hy. unfold truediv.
  destruct (Qeq_bool y 0) eqn:E; [|reflexivity].
  apply Qeq_bool_iff in E. contradiction.
Qed.

Lemma truediv_zero (x y : Q) : y == 0 -> truediv x y = Raise ZeroDivisionError.
Proof.
  intros Hy. unfold truediv.
  apply Qeq_bool_iff in Hy. now rewrite Hy.
Qed.

Lemma pow_2 (x : Q) : pow x 2 == x * x.
Proof. unfold pow. simpl. reflexivity. Qed.

Lemma pow_2_nonzero (x : Q) : ~ x == 0 -> ~ pow x 2 == 0.
Proof.
  intros Hx H. rewrite pow_2 in H.
  apply Qmult_integral in H. tauto.
Qed.

Lemma Qdiv_nonzero (x y : Q) : ~ x == 0 -> ~ y == 0 -> ~ x / y == 0.
Proof.
  intros Hx Hy H. apply Hx.
  setoid_replace x with (x / y * y) by (field; exact Hy).
  rewrite H. ring.
Qed.

(** ** Standard converter *)

(** C5. Meters to kilometers returns [value / 1000], kilograms to grams
    returns [value * 1000], neither raises for any value, and converting
    to kilometers and the result to grams gives the value back. *)
Theorem standard_converter_round_trip (value : Q) :
  render_standard_converter value Meters_to_Kilometers = Ok (value / 1000) /\
  render_standard_converter value Kilograms_to_Grams = Ok (value * 1000) /\
  (forall unit, exists r, render_standard_converter value unit = Ok r) /\
  exists km g,
    render_standard_converter value Meters_to_Kilometers = Ok km /\
    render_standard_converter km Kilograms_to_Grams = Ok g /\
    g == value.
Proof.
  repeat split.
  - intros [|]; eexists; reflexivity.
  - exists (value / 1000), (value / 1000 * 1000).
    repeat split. field.
Qed.

(** ** Temperature converter *)

(** C6. Celsius to Fahrenheit returns [t * 9 / 5 + 32], Fahrenheit to
    Celsius returns [(t - 32) * 5 / 9], and converting to Fahrenheit
    and back gives [t]. *)
Theorem temperature_converter_round_trip (t : Q) :
  render_temperature_converter t Celsius_to_Fahrenheit = Ok (t * 9 / 5 + 32) /\
  render_temperature_converter t Fahrenheit_to_Celsius = Ok ((t - 32) * 5 / 9) /\
  exists fahrenheit celsius,
    render_temperature_converter t Celsius_to_Fahrenheit = Ok fahrenheit /\
    render_temperature_converter fahrenheit Fahrenheit_to_Celsius = Ok celsius /\
    celsius == t.
Proof.
  repeat split.
  exists (t * 9 / 5 + 32), ((t * 9 / 5 + 32 - 32) * 5 / 9).
  repeat split. field.
Qed.

(** ** Advanced per-unit calculator *)

Lemma Z_base_nonzero (base_mva base_kv : Q) :
  ~ base_mva == 0 -> ~ base_kv == 0 -> ~ pow base_kv 2 / base_mva == 0.
Proof.
  intros Hm Hk. apply Qdiv_nonzero; [|exact Hm].
  apply pow_2_nonzero, Hk.
Qed.

Lemma Y_base_nonzero (zb : Q) : ~ zb == 0 -> ~ 1 / zb == 0.
Proof. intros Hz. apply Qdiv_nonzero; [discriminate | exact Hz]. Qed.

Lemma render_enhanced_per_unit_ok
  (base_mva base_kv length R_per X_per B_per : Q) :
  ~ base_mva == 0 -> ~ base_kv == 0 ->
  render_enhanced_per_unit base_mva base_kv length R_per X_per B_per =
  Ok (per_unit_values base_mva base_kv length R_per X_per B_per).
Proof.
  intros Hm Hk.
  pose proof (Z_base_nonzero _ _ Hm Hk) as Hz.
  pose proof (Y_base_nonzero _ Hz) as Hy.
  unfold render_enhanced_per_unit.
  rewrite (truediv_ok _ _ Hm). cbn [bind].
  rewrite (truediv_ok _ _ Hz). cbn [bind].
  rewrite !(truediv_ok _ _ Hz). cbn [bind].
  rewrite (truediv_ok _ _ Hy). cbn [bind].
  reflexivity.
Qed.






(** ** ZIP load model *)

Lemma render_zip_load_model_ok (P0 Q0 V0 a b d e V : Q) :
  ~ V0 == 0 ->
  render_zip_load_model P0 Q0 V0 a b d e V =
  Ok (zip_values P0 Q0 V0 a b d e V).
Proof.
  intros H0. unfold render_zip_load_model.
  rewrite (truediv_ok _ _ H0). reflexivity.
Qed.

Lemma render_zip_load_model_zero (P0 Q0 V0 a b d e V : Q) :
  V0 == 0 ->
  render_zip_load_model P0 Q0 V0 a b d e V = Raise ZeroDivisionError.
Proof.
  intros H0. unfold render_zip_load_model.
  rewrite (truediv_zero _ _ H0). reflexivity.
Qed.



(** ** Curve sampler *)















(** ** Text *)

Close Scope Q_scope.
Open Scope N_scope.

Ltac nlia := zify; Z.to_euclidean_division_equations; lia.

Lemma byte_of_N_to_N (n : N) : n < 256 -> Byte.to_N (byte_of_N n) = n.
Proof.
  intros Hn. unfold byte_of_N.
  destruct (Byte.of_N n) as [b|] eqn:E.
  - now apply Byte.to_of_N.
  - apply Byte.of_N_None_iff in E. lia.
Qed.

Lemma continuation_byte (k : N) :
  k < 64 -> continuation (byte_of_N (0x80 + k)) = Some k.
Proof.
  intros Hk. unfold continuation.
  rewrite byte_of_N_to_N by lia.
  replace (0x80 <=? 0x80 + k) with true by (symmetry; apply N.leb_le; lia).
  replace (0x80 + k <? 0xC0) with true by (symmetry; apply N.ltb_lt; lia).
  cbn [andb]. f_equal. lia.
Qed.

Lemma decoded_scalar (lo hi c : N) (rest : option str) :
  lo <= c -> c < hi -> scalar_value c = true ->
  decoded lo hi c rest = option_map (cons c) rest.
Proof.
  intros Hlo Hhi Hs. unfold decoded.
  replace (lo <=? c) with true by (symmetry; now apply N.leb_le).
  replace (c <? hi) with true by (symmetry; now apply N.ltb_lt).
  replace ((0xD800 <=? c) && (c <? 0xE000)) with false; [reflexivity|].
  symmetry. unfold scalar_value in Hs.
  destruct (c <? 0xD800) eqn:E1.
  - apply N.ltb_lt in E1.
    replace (0xD800 <=? c) with false by (symmetry; apply N.leb_gt; lia).
    reflexivity.
  - cbn [orb] in Hs. apply andb_true_iff in Hs. destruct Hs as [Hs _].
    apply N.leb_le in Hs.
    replace (c <? 0xE000) with false by (symmetry; apply N.ltb_ge; lia).
    apply andb_false_r.
Qed.

Lemma utf8_encode_char_scalar (c : N) :
  scalar_value c = true <-> exists bs, utf8_encode_char c = Ok bs.
Proof.
  unfold scalar_value, utf8_encode_char.
  destruct (c <? 0x80) eqn:H1; [apply N.ltb_lt in H1|apply N.ltb_ge in H1].
  { replace (c <? 0xD800) with true by (symmetry; apply N.ltb_lt; lia).
    split; [eauto | reflexivity]. }
  destruct (c <? 0x800) eqn:H2; [apply N.ltb_lt in H2|apply N.ltb_ge in H2].
  { replace (c <? 0xD800) with true by (symmetry; apply N.ltb_lt; lia).
    split; [eauto | reflexivity]. }
  destruct (c <? 0x10000) eqn:H3; [apply N.ltb_lt in H3|apply N.ltb_ge in H3].
  { destruct (c <? 0xD800) eqn:H4; [apply N.ltb_lt in H4|apply N.ltb_ge in H4].
    - replace (0xD800 <=? c) with false by (symmetry; apply N.leb_gt; lia).
      cbn [andb orb]. split; [eauto | reflexivity].
    - replace (0xD800 <=? c) with true by (symmetry; apply N.leb_le; lia).
      replace (c <? 0x110000) with true by (symmetry; apply N.ltb_lt; lia).
      cbn [orb andb]. rewrite andb_true_r.
      destruct (c <? 0xE000) eqn:H5;
        [apply N.ltb_lt in H5|apply N.ltb_ge in H5].
      + replace (0xE000 <=? c) with false by (symmetry; apply N.leb_gt; lia).
        split; [discriminate | intros [bs Hbs]; discriminate].
      + replace (0xE000 <=? c) with true by (symmetry; apply N.leb_le; lia).
        split; [eauto | reflexivity]. }
  replace (c <? 0xD800) with false by (symmetry; apply N.ltb_ge; lia).
  replace (0xE000 <=? c) with true by (symmetry; apply N.leb_le; lia).
  cbn [orb andb].
  destruct (c <? 0x110000); split; eauto; try discriminate.
  intros [bs Hbs]; discriminate.
Qed.

Lemma Ok_inj {A : Type} (x y : A) : Ok x = Ok y -> x = y.
Proof. congruence. Qed.

Lemma utf8_decode_cons (b0 : byte) (bs1 : list byte) :
  utf8_decode (b0 :: bs1) =
  let n0 := Byte.to_N b0 in
  if n0 <? 0x80 then option_map (cons n0) (utf8_decode bs1)
  else if n0 <? 0xC0 then None
  else if n0 <? 0xE0 then
    match bs1 with
    | b1 :: bs2 =>
        match continuation b1 with
        | Some n1 =>
            decoded 0x80 0x800 ((n0 - 0xC0) * 64 + n1) (utf8_decode bs2)
        | None => None
        end
    | _ => None
    end
  else if n0 <? 0xF0 then
    match bs1 with
    | b1 :: b2 :: bs3 =>
        match continuation b1, continuation b2 with
        | Some n1, Some n2 =>
            decoded 0x800 0x10000 ((n0 - 0xE0) * 4096 + n1 * 64 + n2)
                    (utf8_decode bs3)
        | _, _ => None
        end
    | _ => None
    end
  else
    match bs1 with
    | b1 :: b2 :: b3 :: bs4 =>
        match continuation b1, continuation b2, continuation b3 with
        | Some n1, Some n2, Some n3 =>
            decoded 0x10000 0x110000
                    ((n0 - 0xF0) * 262144 + n1 * 4096 + n2 * 64 + n3)
                    (utf8_decode bs4)
        | _, _, _ => None
        end
    | _ => None
    end.
Proof. reflexivity. Qed.

Lemma utf8_decode_encode_char (c : N) (bs rest : list byte) :
  utf8_encode_char c = Ok bs ->
  utf8_decode (bs ++ rest) = option_map (cons c) (utf8_decode rest).
Proof.
  intros Hbs.
  assert (Hs : scalar_value c = true)
    by (apply utf8_encode_char_scalar; eauto).
  revert Hbs. unfold utf8_encode_char.
  destruct (c <? 0x80) eqn:H1; [apply N.ltb_lt in H1|apply N.ltb_ge in H1].
  { intros E. apply Ok_inj in E. subst bs. cbn [app]. rewrite utf8_decode_cons. cbv beta iota zeta.
    rewrite byte_of_N_to_N by lia.
    replace (c <? 0x80) with true by (symmetry; now apply N.ltb_lt).
    reflexivity. }
  destruct (c <? 0x800) eqn:H2; [apply N.ltb_lt in H2|apply N.ltb_ge in H2].
  { intros E. apply Ok_inj in E. subst bs. cbn [app]. rewrite utf8_decode_cons. cbv beta iota zeta.
    rewrite byte_of_N_to_N by nlia.
    replace (0xC0 + c / 64 <? 0x80) with false by (symmetry; apply N.ltb_ge; nlia).
    replace (0xC0 + c / 64 <? 0xC0) with false by (symmetry; apply N.ltb_ge; nlia).
    replace (0xC0 + c / 64 <? 0xE0) with true by (symmetry; apply N.ltb_lt; nlia).
    rewrite continuation_byte by nlia.
    replace ((0xC0 + c / 64 - 0xC0) * 64 + c mod 64) with c by nlia.
    apply decoded_scalar; [lia | lia | exact Hs]. }
  destruct (c <? 0x10000) eqn:H3; [apply N.ltb_lt in H3|apply N.ltb_ge in H3].
  { destruct ((0xD800 <=? c) && (c <? 0xE000)); [discriminate|].
    intros E. apply Ok_inj in E. subst bs. cbn [app]. rewrite utf8_decode_cons. cbv beta iota zeta.
    rewrite byte_of_N_to_N by nlia.
    replace (0xE0 + c / 4096 <? 0x80) with false by (symmetry; apply N.ltb_ge; nlia).
    replace (0xE0 + c / 4096 <? 0xC0) with false by (symmetry; apply N.ltb_ge; nlia).
    replace (0xE0 + c / 4096 <? 0xE0) with false by (symmetry; apply N.ltb_ge; nlia).
    replace (0xE0 + c / 4096 <? 0xF0) with true by (symmetry; apply N.ltb_lt; nlia).
    rewrite !continuation_byte by nlia.
    replace ((0xE0 + c / 4096 - 0xE0) * 4096 + (c / 64) mod 64 * 64 + c mod 64)
      with c by nlia.
    apply decoded_scalar; [lia | lia | exact Hs]. }
  destruct (c <? 0x110000) eqn:H4; [apply N.ltb_lt in H4|discriminate].
  intros E. apply Ok_inj in E. subst bs. cbn [app]. rewrite utf8_decode_cons. cbv beta iota zeta.
  rewrite byte_of_N_to_N by nlia.
  replace (0xF0 + c / 262144 <? 0x80) with false by (symmetry; apply N.ltb_ge; nlia).
  replace (0xF0 + c / 262144 <? 0xC0) with false by (symmetry; apply N.ltb_ge; nlia).
  replace (0xF0 + c / 262144 <? 0xE0) with false by (symmetry; apply N.ltb_ge; nlia).
  replace (0xF0 + c / 262144 <? 0xF0) with false by (symmetry; apply N.ltb_ge; nlia).
  rewrite !continuation_byte by nlia.
  replace ((0xF0 + c / 262144 - 0xF0) * 262144 + (c / 4096) mod 64 * 4096 +
           (c / 64) mod 64 * 64 + c mod 64) with c by nlia.
  apply decoded_scalar; [lia | lia | exact Hs].
Qed.

Lemma utf8_decode_encode (s : str) (bs : list byte) :
  utf8_encode s = Ok bs -> utf8_decode bs = Some s.
Proof.
  revert bs. induction s as [|c s IH]; intros bs.
  - intros [= <-]. reflexivity.
  - cbn [utf8_encode]. 
    destruct (utf8_encode_char c) as [b|] eqn:Ec; [|discriminate].
    cbn [bind]. destruct (utf8_encode s) as [r|]; [|discriminate].
    cbn [bind]. intros [= <-].
    rewrite (utf8_decode_encode_char c b r Ec), (IH r eq_refl).
    reflexivity.
Qed.

Lemma utf8_encode_scalar (s : str) :
  forallb scalar_value s = true <-> exists bs, utf8_encode s = Ok bs.
Proof.
  induction s as [|c s IH].
  - split; [eexists; reflexivity | reflexivity].
  - cbn [forallb utf8_encode]. rewrite andb_true_iff, IH, utf8_encode_char_scalar.
    split.
    + intros [[b Hb] [r Hr]]. rewrite Hb, Hr. eexists. reflexivity.
    + destruct (utf8_encode_char c) as [b|]; [|intros [? H]; discriminate H].
      destruct (utf8_encode s) as [r|]; [|intros [? H]; discriminate H].
      eauto.
Qed.

(** ** CSV: what is written reads back *)

Lemma classify_dquote : classify dquote = DQuote.
Proof. reflexivity. Qed.

Lemma classify_comma : classify comma = Comma.
Proof. reflexivity. Qed.

Lemma classify_not_dquote (c : N) :
  (c =? dquote) = false -> classify c <> DQuote.
Proof.
  intros H. unfold classify. rewrite H.
  destruct (c =? comma), (c =? LF), (c =? CR); discriminate.
Qed.

Lemma linesep_has_LF (name : os) : existsb (N.eqb LF) (linesep name) = true.
Proof. destruct name; reflexivity. Qed.

(** A character that is written without quotes is an ordinary one. *)
Lemma classify_unquoted (name : os) (c : N) :
  special (linesep name) c = false ->
  negb (c =? CR) || special (linesep name) c = true ->
  classify c = Other.
Proof.
  intros Hs Hcr. rewrite Hs, orb_false_r in Hcr.
  apply negb_true_iff in Hcr.
  unfold special in Hs.
  apply orb_false_iff in Hs. destruct Hs as [Hs Hlt].
  apply orb_false_iff in Hs. destruct Hs as [Hc Hq].
  unfold classify. rewrite Hc, Hq, Hcr.
  destruct (c =? LF) eqn:E; [|reflexivity].
  apply N.eqb_eq in E. subst c.
  rewrite linesep_has_LF in Hlt. discriminate.
Qed.

Lemma parse_escape (f : str) :
  forall rows fields field rest,
    csv_parse IN_QUOTED_FIELD rows fields field (escape f ++ rest) =
    csv_parse IN_QUOTED_FIELD rows fields (rev f ++ field) rest.
Proof.
  induction f as [|c f IH]; intros rows fields field rest; [reflexivity|].
  unfold escape in *. cbn [flat_map rev].
  rewrite <- !app_assoc. cbn [app].
  destruct (c =? dquote) eqn:E.
  - apply N.eqb_eq in E. subst c. cbn [app csv_parse].
    rewrite classify_dquote. apply IH.
  - cbn [app csv_parse].
    pose proof (classify_not_dquote c E) as Hc.
    destruct (classify c); try contradiction; apply IH.
Qed.

Lemma parse_unquoted (name : os) (f : str) :
  forall rows fields field rest,
    existsb (special (linesep name)) f = false ->
    no_bare_cr (linesep name) f = true ->
    csv_parse IN_FIELD rows fields field (f ++ rest) =
    csv_parse IN_FIELD rows fields (rev f ++ field) rest.
Proof.
  induction f as [|c f IH]; intros rows fields field rest Hs Hcr;
    [reflexivity|].
  cbn [existsb] in Hs. apply orb_false_iff in Hs. destruct Hs as [Hc Hs].
  unfold no_bare_cr in Hcr. cbn [forallb] in Hcr.
  apply andb_true_iff in Hcr. destruct Hcr as [Hc' Hcr].
  cbn [app csv_parse rev]. rewrite (classify_unquoted name c Hc Hc').
  rewrite <- app_assoc. cbn [app]. apply IH; assumption.
Qed.

Lemma parse_quoted (state : reader_state) (f : str) :
  forall rows fields t rest,
    state = START_RECORD \/ state = START_FIELD ->
    ends_field t = true ->
    csv_parse state rows fields [] (quoted f ++ t :: rest) =
    csv_parse IN_FIELD rows fields (rev f) (t :: rest).
Proof.
  intros rows fields t rest Hst Ht. unfold quoted.
  cbn [app]. rewrite <- app_assoc.
  assert (Hopen : forall s,
    csv_parse state rows fields [] (dquote :: s) =
    csv_parse IN_QUOTED_FIELD rows fields [] s).
  { intros s. destruct Hst as [-> | ->]; reflexivity. }
  rewrite Hopen, parse_escape, app_nil_r.
  cbn [app]. unfold ends_field in Ht.
  cbn [csv_parse]. rewrite classify_dquote.
  cbn [csv_parse]. destruct (classify t); try discriminate; reflexivity.
Qed.

Lemma parse_join_append (name : os) (state : reader_state) (f : str) :
  forall rows fields t rest,
    state = START_FIELD \/
    (state = START_RECORD /\ (classify t = Comma \/ f <> [])) ->
    no_bare_cr (linesep name) f = true ->
    ends_field t = true ->
    csv_parse state rows fields [] (join_append (linesep name) f ++ t :: rest) =
    csv_parse IN_FIELD rows fields (rev f) (t :: rest).
Proof.
  intros rows fields t rest Hst Hcr Ht. unfold join_append.
  destruct (existsb (special (linesep name)) f) eqn:Hs.
  { apply parse_quoted; [|exact Ht]. tauto. }
  destruct f as [|c f].
  - cbn [app rev]. unfold ends_field in Ht.
    destruct Hst as [-> | [-> [Hc | Hf]]].
    + cbn [csv_parse]. destruct (classify t); try discriminate; reflexivity.
    + cbn [csv_parse]. rewrite Hc. reflexivity.
    + contradiction.
  - pose proof Hs as Hs'. pose proof Hcr as Hcr'.
    cbn [existsb] in Hs'. apply orb_false_iff in Hs'.
    destruct Hs' as [Hc Hs'].
    unfold no_bare_cr in Hcr'. cbn [forallb] in Hcr'.
    apply andb_true_iff in Hcr'. destruct Hcr' as [Hc' Hcr'].
    pose proof (classify_unquoted name c Hc Hc') as Hcl.
    assert (Hfirst : forall s,
      csv_parse state rows fields [] (c :: s) =
      csv_parse IN_FIELD rows fields [c] s).
    { intros s. destruct Hst as [-> | [-> _]];
        cbn [csv_parse]; rewrite Hcl; reflexivity. }
    cbn [app]. rewrite Hfirst.
    rewrite (parse_unquoted name f) by assumption.
    cbn [rev]. reflexivity.
Qed.

Lemma join_append_nonempty (lineterminator : str) (f : str) :
  f <> [] -> join_append lineterminator f <> [].
Proof.
  intros Hf. unfold join_append.
  destruct (existsb _ f); [discriminate | exact Hf].
Qed.

Lemma join_nil (lineterminator : str) (fields : list str) :
  join lineterminator fields = [] -> fields = [] \/ fields = [[]].
Proof.
  destruct fields as [|f [|g fields]]; cbn [join].
  - now left.
  - intros H. right. destruct f as [|c f]; [reflexivity|].
    exfalso. revert H. apply join_append_nonempty. discriminate.
  - intros H. apply app_eq_nil in H. destruct H as [_ H]. discriminate H.
Qed.

(** Ending a record at the line terminator. *)
Lemma parse_linesep (name : os) :
  forall rows fields field rest,
    csv_parse IN_FIELD rows fields field (linesep name ++ rest) =
    csv_parse START_RECORD (rev (rev field :: fields) :: rows) [] [] rest.
Proof.
  intros rows fields field rest.
  destruct name; cbn [linesep app csv_parse]; reflexivity.
Qed.

Lemma ends_field_linesep (name : os) (rest : str) :
  exists t s, linesep name ++ rest = t :: s /\ ends_field t = true /\
              classify t <> Comma.
Proof.
  destruct name; cbn [linesep app]; do 2 eexists;
    (split; [reflexivity|]); split; try reflexivity; discriminate.
Qed.

Lemma parse_join (name : os) (fs : list str) :
  forall state rows fields rest,
    fs <> [] ->
    state = START_FIELD \/ (state = START_RECORD /\ fs <> [[]]) ->
    forallb (no_bare_cr (linesep name)) fs = true ->
    csv_parse state rows fields [] (join (linesep name) fs ++ linesep name ++ rest) =
    csv_parse START_RECORD (rev (rev fs ++ fields) :: rows) [] [] rest.
Proof.
  induction fs as [|f fs IH]; intros state rows fields rest Hne Hst Hcr;
    [contradiction|].
  cbn [forallb] in Hcr. apply andb_true_iff in Hcr. destruct Hcr as [Hf Hcr].
  destruct fs as [|g fs].
  - cbn [join rev app].
    destruct (ends_field_linesep name rest) as (t & s & Hts & Ht & Hnc).
    rewrite Hts.
    rewrite (parse_join_append name state f); [| |exact Hf|exact Ht].
    + rewrite <- Hts, parse_linesep, rev_involutive. reflexivity.
    + destruct Hst as [Hst | [Hst Hfs]]; [now left|right].
      split; [exact Hst|]. right. intros ->. now apply Hfs.
  - change (join (linesep name) (f :: g :: fs))
      with (join_append (linesep name) f ++ comma :: join (linesep name) (g :: fs)).
    rewrite <- app_assoc. cbn [app].
    rewrite (parse_join_append name state f); [| |exact Hf|reflexivity].
    + cbn [csv_parse]. rewrite classify_comma.
      rewrite rev_involutive.
      rewrite (IH START_FIELD); [|discriminate|now left|exact Hcr].
      cbn [rev]. rewrite <- !app_assoc. reflexivity.
    + destruct Hst as [Hst | [Hst _]]; [now left|right].
      split; [exact Hst|]. now left.
Qed.

Lemma parse_writerow (name : os) (fs : list str) :
  forall rows rest,
    forallb (no_bare_cr (linesep name)) fs = true ->
    csv_parse START_RECORD rows [] [] (writerow (linesep name) fs ++ rest) =
    csv_parse START_RECORD (fs :: rows) [] [] rest.
Proof.
  intros rows rest Hcr. unfold writerow.
  destruct fs as [|f fs].
  - cbn [join]. destruct name; reflexivity.
  - destruct (join (linesep name) (f :: fs)) as [|c rec] eqn:Hrec.
    + apply join_nil in Hrec. destruct Hrec as [Hrec | Hrec];
        [discriminate|]. rewrite Hrec.
      destruct name; reflexivity.
    + rewrite <- Hrec, <- app_assoc.
      rewrite (parse_join name (f :: fs)); [| discriminate | | exact Hcr].
      * rewrite app_nil_r, rev_involutive. reflexivity.
      * right. split; [reflexivity|]. intros E. rewrite E in Hrec.
        discriminate Hrec.
Qed.

Lemma parse_writerows (name : os) (records : list (list str)) :
  forall rows,
    forallb (forallb (no_bare_cr (linesep name))) records = true ->
    csv_parse START_RECORD rows [] []
      (flat_map (writerow (linesep name)) records) =
    rev rows ++ records.
Proof.
  induction records as [|fs records IH]; intros rows Hcr.
  - cbn [flat_map csv_parse]. now rewrite app_nil_r.
  - cbn [forallb] in Hcr. apply andb_true_iff in Hcr.
    destruct Hcr as [Hfs Hcr].
    cbn [flat_map]. rewrite (parse_writerow name fs) by exact Hfs.
    rewrite IH by exact Hcr. cbn [rev]. now rewrite <- app_assoc.
Qed.

(** Reading what [csv.writer] wrote gives the records back. *)
Lemma csv_reader_writerows (name : os) (records : list (list str)) :
  forallb (forallb (no_bare_cr (linesep name))) records = true ->
  csv_reader (flat_map (writerow (linesep name)) records) = records.
Proof.
  intros Hcr. unfold csv_reader.
  now rewrite (parse_writerows name records []).
Qed.

(** ** CSV: what is written can be encoded *)






(** ** CSV export *)

Lemma to_csv_DataFrame (name : os) (float_repr : Q -> str)
  (data_dict : list (str * value)) :
  to_csv name float_repr (DataFrame data_dict) =
  flat_map (writerow (linesep name))
    [map fst data_dict; map (to_str float_repr) (map snd data_dict)].
Proof.
  unfold to_csv, DataFrame. cbn [columns data flat_map].
  reflexivity.
Qed.




(** * Further properties of the pages *)

Close Scope N_scope.
Open Scope Q_scope.

(** ** Converters *)

(** Kilograms to grams and then meters to kilometers, the two
    conversions in the other order, give the value back as well. *)
Theorem standard_converter_reverse_round_trip (value : Q) :
  exists g km,
    render_standard_converter value Kilograms_to_Grams = Ok g /\
    render_standard_converter g Meters_to_Kilometers = Ok km /\
    km == value.
Proof.
  exists (value * 1000), (value * 1000 / 1000).
  repeat split. field.
Qed.

(** Neither conversion reverses the order of two values: the result
    for the larger one is never the smaller. *)
Theorem standard_converter_monotone (unit : standard_unit) (v1 v2 : Q) :
  v1 <= v2 ->
  exists r1 r2,
    render_standard_converter v1 unit = Ok r1 /\
    render_standard_converter v2 unit = Ok r2 /\
    r1 <= r2.
Proof.
  intros H. destruct unit.
  - exists (v1 / 1000), (v2 / 1000). repeat split.
    unfold Qdiv. apply Qmult_le_compat_r; [exact H | discriminate].
  - exists (v1 * 1000), (v2 * 1000). repeat split.
    apply Qmult_le_compat_r; [exact H | discriminate].
Qed.

Lemma standard_converter_monotone_witness :
  exists r1 r2,
    render_standard_converter 1 Meters_to_Kilometers = Ok r1 /\
    render_standard_converter 2 Meters_to_Kilometers = Ok r2 /\
    r1 <= r2.
Proof.
  apply (standard_converter_monotone Meters_to_Kilometers 1 2). discriminate.
Defined.

(** Fahrenheit to Celsius and back to Fahrenheit gives the temperature
    back. *)
Theorem temperature_converter_reverse_round_trip (t : Q) :
  exists celsius fahrenheit,
    render_temperature_converter t Fahrenheit_to_Celsius = Ok celsius /\
    render_temperature_converter celsius Celsius_to_Fahrenheit = Ok fahrenheit /\
    fahrenheit == t.
Proof.
  exists ((t - 32) * 5 / 9), ((t - 32) * 5 / 9 * 9 / 5 + 32).
  repeat split. field.
Qed.

(** In both directions the converter returns its input at -40 and at
    no other temperature. *)
Theorem temperature_converter_fixed_point (unit : temperature_unit) (t : Q) :
  exists r,
    render_temperature_converter t unit = Ok r /\
    (r == t <-> t == -40).
Proof.
  destruct unit.
  - exists (t * 9 / 5 + 32). split; [reflexivity|].
    split; intros H.
    + assert (E : t * 9 / 5 + 32 == t * (9 # 5) + 32) by field. lra.
    + rewrite H. reflexivity.
  - exists ((t - 32) * 5 / 9). split; [reflexivity|].
    split; intros H.
    + assert (E : (t - 32) * 5 / 9 == (t - 32) * (5 # 9)) by field. lra.
    + rewrite H. reflexivity.
Qed.

(** In neither direction does the converter reverse the order of two
    temperatures: the result for the higher one is never the lower. *)
Theorem temperature_converter_monotone
  (unit : temperature_unit) (t1 t2 : Q) :
  t1 <= t2 ->
  exists r1 r2,
    render_temperature_converter t1 unit = Ok r1 /\
    render_temperature_converter t2 unit = Ok r2 /\
    r1 <= r2.
Proof.
  intros H. destruct unit.
  - exists (t1 * 9 / 5 + 32), (t2 * 9 / 5 + 32). repeat split.
    assert (E1 : t1 * 9 / 5 + 32 == t1 * (9 # 5) + 32) by field.
    assert (E2 : t2 * 9 / 5 + 32 == t2 * (9 # 5) + 32) by field.
    lra.
  - exists ((t1 - 32) * 5 / 9), ((t2 - 32) * 5 / 9). repeat split.
    assert (E1 : (t1 - 32) * 5 / 9 == (t1 - 32) * (5 # 9)) by field.
    assert (E2 : (t2 - 32) * 5 / 9 == (t2 - 32) * (5 # 9)) by field.
    lra.
Qed.

Lemma temperature_converter_monotone_witness :
  exists r1 r2,
    render_temperature_converter 0 Celsius_to_Fahrenheit = Ok r1 /\
    render_temperature_converter 100 Celsius_to_Fahrenheit = Ok r2 /\
    r1 <= r2.
Proof.
  apply (temperature_converter_monotone Celsius_to_Fahrenheit 0 100).
  discriminate.
Defined.

(** ** Advanced per-unit calculator *)

(** In exact arithmetic, for nonzero bases of either sign, the base
    admittance is the inverse of the base impedance, the per-unit resistance and
    reactance are the per-km values times [length * base_mva /
    base_kv ** 2], and the per-unit susceptance is the per-km value
    times [length * base_kv ** 2 / base_mva]. *)
Theorem per_unit_closed_forms
  (base_mva base_kv length R_per X_per B_per : Q) :
  ~ base_mva == 0 -> ~ base_kv == 0 ->
  exists r,
    render_enhanced_per_unit base_mva base_kv length R_per X_per B_per = Ok r /\
    Y_base r * Z_base r == 1 /\
    R_pu r == R_per * length * base_mva / (base_kv * base_kv) /\
    X_pu r == X_per * length * base_mva / (base_kv * base_kv) /\
    B_pu r == B_per * length * (base_kv * base_kv) / base_mva.
Proof.
  intros Hm Hk.
  exists (per_unit_values base_mva base_kv length R_per X_per B_per).
  split; [now apply render_enhanced_per_unit_ok|].
  cbn [per_unit_values Z_base Y_base R_pu X_pu B_pu].
  unfold pow. change (base_kv ^ 2) with (base_kv * base_kv).
  repeat split; field; auto.
Qed.

Lemma per_unit_closed_forms_witness :
  exists r,
    render_enhanced_per_unit (-100) 13.8 10 0.1 0.3 0.0002 = Ok r /\
    Y_base r * Z_base r == 1.
Proof.
  destruct (per_unit_closed_forms (-100) 13.8 10 0.1 0.3 0.0002)
    as (r & Hr & Hy & _); [discriminate | discriminate |].
  exists r. split; assumption.
Defined.

(** In exact arithmetic, the totals and the per-unit values of a line
    are the sums of those of two sections that make up its length. *)
Theorem per_unit_additive_in_length
  (base_mva base_kv l1 l2 R_per X_per B_per : Q) :
  ~ base_mva == 0 -> ~ base_kv == 0 ->
  exists r r1 r2,
    render_enhanced_per_unit base_mva base_kv (l1 + l2) R_per X_per B_per = Ok r /\
    render_enhanced_per_unit base_mva base_kv l1 R_per X_per B_per = Ok r1 /\
    render_enhanced_per_unit base_mva base_kv l2 R_per X_per B_per = Ok r2 /\
    R_total r == R_total r1 + R_total r2 /\
    X_total r == X_total r1 + X_total r2 /\
    B_total r == B_total r1 + B_total r2 /\
    R_pu r == R_pu r1 + R_pu r2 /\
    X_pu r == X_pu r1 + X_pu r2 /\
    B_pu r == B_pu r1 + B_pu r2.
Proof.
  intros Hm Hk.
  pose proof (Z_base_nonzero _ _ Hm Hk) as Hz.
  pose proof (Y_base_nonzero _ Hz) as Hy.
  exists (per_unit_values base_mva base_kv (l1 + l2) R_per X_per B_per),
         (per_unit_values base_mva base_kv l1 R_per X_per B_per),
         (per_unit_values base_mva base_kv l2 R_per X_per B_per).
  do 3 (split; [now apply render_enhanced_per_unit_ok|]).
  cbn [per_unit_values R_total X_total B_total R_pu X_pu B_pu].
  set (zb := pow base_kv 2 / base_mva) in *.
  unfold Qdiv. repeat split; ring.
Qed.

Lemma per_unit_additive_in_length_witness :
  exists r r1 r2,
    render_enhanced_per_unit 100 13.8 10 0.1 0.3 0.0002 = Ok r /\
    render_enhanced_per_unit 100 13.8 4 0.1 0.3 0.0002 = Ok r1 /\
    render_enhanced_per_unit 100 13.8 6 0.1 0.3 0.0002 = Ok r2 /\
    R_pu r == R_pu r1 + R_pu r2.
Proof.
  destruct (per_unit_additive_in_length 100 13.8 4 6 0.1 0.3 0.0002)
    as (r & r1 & r2 & Hr & H1 & H2 & _ & _ & _ & Hpu & _);
    [discriminate | discriminate |].
  exists r, r1, r2. repeat split; assumption.
Defined.

(** ** ZIP load model *)

(** With a base voltage of zero, which its widget, without a
    [min_value], lets through, the page raises [ZeroDivisionError],
    whatever the other inputs. *)
Theorem zip_load_base_voltage (P0 Q0 V0 a b d e V : Q) :
  V0 == 0 ->
  render_zip_load_model P0 Q0 V0 a b d e V = Raise ZeroDivisionError /\
  ~ (exists r, render_zip_load_model P0 Q0 V0 a b d e V = Ok r).
Proof.
  intros H0.
  rewrite (render_zip_load_model_zero _ _ _ _ _ _ _ _ H0).
  split; [reflexivity|]. intros [r Hr]. discriminate Hr.
Qed.

Lemma zip_load_base_voltage_witness :
  render_zip_load_model 100 50 0 0.5 0.3 0.5 0.3 1 = Raise ZeroDivisionError.
Proof.
  apply (zip_load_base_voltage 100 50 0 0.5 0.3 0.5 0.3 1). reflexivity.
Defined.

(** In exact arithmetic, at the base voltage the load is the base
    load, [P = P0] and [Q = Q0], whatever the coefficients. *)
Theorem zip_load_at_base_voltage (P0 Q0 V0 a b d e : Q) :
  ~ V0 == 0 ->
  exists r,
    render_zip_load_model P0 Q0 V0 a b d e V0 = Ok r /\
    zip_P r == P0 /\ zip_Q r == Q0.
Proof.
  intros H0. exists (zip_values P0 Q0 V0 a b d e V0).
  split; [now apply render_zip_load_model_ok|].
  cbn [zip_values zip_P zip_Q]. unfold pow.
  change ((V0 / V0) ^ 2) with (V0 / V0 * (V0 / V0)).
  split; field; exact H0.
Qed.

Lemma zip_load_at_base_voltage_witness :
  exists r,
    render_zip_load_model 100 50 0.95 0.7 0.9 0.1 0.2 0.95 = Ok r /\
    zip_P r == 100 /\ zip_Q r == 50.
Proof.
  apply (zip_load_at_base_voltage 100 50 0.95 0.7 0.9 0.1 0.2). discriminate.
Defined.

(** In exact arithmetic, [P] and [Q] depend on the voltages only
    through [V / V0]: scaling both by the same nonzero factor changes
    neither. *)
Theorem zip_load_scale_invariant (P0 Q0 V0 a b d e V k : Q) :
  ~ V0 == 0 -> ~ k == 0 ->
  exists r rk,
    render_zip_load_model P0 Q0 V0 a b d e V = Ok r /\
    render_zip_load_model P0 Q0 (k * V0) a b d e (k * V) = Ok rk /\
    zip_P rk == zip_P r /\ zip_Q rk == zip_Q r.
Proof.
  intros H0 Hk.
  assert (Hk0 : ~ k * V0 == 0).
  { intros E. apply Qmult_integral in E. tauto. }
  exists (zip_values P0 Q0 V0 a b d e V),
         (zip_values P0 Q0 (k * V0) a b d e (k * V)).
  do 2 (split; [now apply render_zip_load_model_ok|]).
  cbn [zip_values zip_P zip_Q].
  assert (E : k * V / (k * V0) == V / V0) by (field; tauto).
  unfold pow. rewrite E. split; reflexivity.
Qed.

Lemma zip_load_scale_invariant_witness :
  exists r rk,
    render_zip_load_model 100 50 1 0.5 0.3 0.5 0.3 0.9 = Ok r /\
    render_zip_load_model 100 50 (13.8 * 1) 0.5 0.3 0.5 0.3 (13.8 * 0.9) = Ok rk /\
    zip_P rk == zip_P r /\ zip_Q rk == zip_Q r.
Proof.
  apply (zip_load_scale_invariant 100 50 1 0.5 0.3 0.5 0.3 0.9 13.8);
    discriminate.
Defined.

(** ** Curves *)






Lemma temperature_converter_fixed_point_witness :
  exists r,
    render_temperature_converter (-40) Celsius_to_Fahrenheit = Ok r /\
    r == -40.
Proof.
  destruct (temperature_converter_fixed_point Celsius_to_Fahrenheit (-40))
    as (r & Hr & Hfix).
  exists r. split; [exact Hr|]. apply Hfix. reflexivity.
Defined.

(** ** Sign of the load *)




(** * Further properties of the export *)

Close Scope Q_scope.
Open Scope N_scope.

(** ** Which exports fail *)

Lemma scalar_escape_eq (s : str) :
  forallb scalar_value (escape s) = forallb scalar_value s.
Proof.
  induction s as [|c s IH]; [reflexivity|].
  unfold escape in *. cbn [flat_map forallb]. rewrite forallb_app, IH.
  destruct (c =? dquote) eqn:E; cbn [forallb].
  - apply N.eqb_eq in E. subst c. reflexivity.
  - now rewrite andb_true_r.
Qed.

Lemma scalar_join_append_eq (lineterminator s : str) :
  forallb scalar_value (join_append lineterminator s) =
  forallb scalar_value s.
Proof.
  unfold join_append, quoted. destruct (existsb _ s); [|reflexivity].
  cbn [forallb]. rewrite forallb_app, scalar_escape_eq.
  cbn [forallb]. now rewrite !andb_true_r.
Qed.

Lemma scalar_join_eq (lineterminator : str) (fields : list str) :
  forallb scalar_value (join lineterminator fields) =
  forallb (forallb scalar_value) fields.
Proof.
  induction fields as [|f fields IH]; [reflexivity|].
  destruct fields as [|g fields].
  - cbn [join forallb]. now rewrite scalar_join_append_eq, andb_true_r.
  - change (join lineterminator (f :: g :: fields))
      with (join_append lineterminator f ++
            comma :: join lineterminator (g :: fields)).
    rewrite forallb_app, scalar_join_append_eq.
    cbn [forallb] in *. now rewrite IH.
Qed.

Lemma scalar_writerow_eq (name : os) (fields : list str) :
  forallb scalar_value (writerow (linesep name) fields) =
  forallb (forallb scalar_value) fields.
Proof.
  assert (Hl : forallb scalar_value (linesep name) = true)
    by (destruct name; reflexivity).
  unfold writerow. destruct fields as [|f fields].
  - cbn [join app]. exact Hl.
  - destruct (join (linesep name) (f :: fields)) eqn:E.
    + apply join_nil in E. destruct E as [E|E]; [discriminate|].
      rewrite E, forallb_app, Hl. reflexivity.
    + rewrite <- E, forallb_app, Hl, andb_true_r. apply scalar_join_eq.
Qed.

Lemma utf8_encode_raises (s : str) :
  forallb scalar_value s = false <->
  utf8_encode s = Raise UnicodeEncodeError.
Proof.
  pose proof (utf8_encode_scalar s) as H.
  assert (Hexn : forall e, utf8_encode s = Raise e -> e = UnicodeEncodeError).
  { clear H. induction s as [|c s IH]; intros e; [discriminate|].
    cbn [utf8_encode].
    destruct (utf8_encode_char c) as [b|e'] eqn:Ec.
    - cbn [bind]. destruct (utf8_encode s) as [r|e''].
      + discriminate.
      + cbn [bind]. intros [= <-]. now apply IH.
    - cbn [bind]. intros [= <-]. revert Ec. unfold utf8_encode_char.
      repeat match goal with
             | |- context [if ?b then _ else _] => destruct b
             end; congruence. }
  split.
  - intros Hf. destruct (utf8_encode s) as [bs|e] eqn:E.
    + assert (Ht : forallb scalar_value s = true) by (apply H; eauto).
      congruence.
    + now rewrite (Hexn e eq_refl).
  - intros Hr. destruct (forallb scalar_value s) eqn:E; [|reflexivity].
    destruct (proj1 H eq_refl) as [bs Hbs]. congruence.
Qed.

(** For a mapping whose integers the interpreter converts to text,
    the export raises [UnicodeEncodeError] exactly when a label or the
    text of a value holds a code point that UTF-8 cannot encode, a
    surrogate, and returns bytes exactly when none does. *)
Theorem export_csv_raises
  (os_name : os) (float_repr : Q -> str) (data_dict : list (str * value)) :
  let fields :=
    map fst data_dict ++ map (to_str float_repr) (map snd data_dict) in
  forallb small_int (map snd data_dict) = true ->
  (forallb (forallb scalar_value) fields = false <->
   export_csv os_name float_repr data_dict = Raise UnicodeEncodeError) /\
  (forallb (forallb scalar_value) fields = true <->
   exists bytes, export_csv os_name float_repr data_dict = Ok bytes).
Proof.
  intros fields _.
  assert (E : forallb scalar_value
                (to_csv os_name float_repr (DataFrame data_dict)) =
              forallb (forallb scalar_value) fields).
  { rewrite to_csv_DataFrame. cbn [flat_map].
    rewrite !forallb_app, !scalar_writerow_eq. cbn [forallb].
    unfold fields. now rewrite forallb_app, andb_true_r. }
  unfold export_csv. rewrite <- E. split.
  - apply utf8_encode_raises.
  - apply utf8_encode_scalar.
Qed.

Lemma export_csv_raises_witness :
  export_csv posix (fun _ => text "1.0") [([0xD800], VInt 1)] =
    Raise UnicodeEncodeError /\
  exists bytes,
    export_csv posix (fun _ => text "1.0") [(text "Ω", VFloat 1%Q)] = Ok bytes.
Proof.
  split.
  - apply (proj1 (export_csv_raises posix (fun _ => text "1.0")
                    [([0xD800], VInt 1)] eq_refl)).
    reflexivity.
  - apply (proj2 (export_csv_raises posix (fun _ => text "1.0")
                    [(text "Ω", VFloat 1%Q)] eq_refl)).
    reflexivity.
Defined.

(** ** Reading an export back *)

Lemma export_csv_read_back
  (os_name : os) (float_repr : Q -> str) (data_dict : list (str * value))
  (bytes : list byte) :
  export_csv os_name float_repr data_dict = Ok bytes ->
  forallb (no_bare_cr (linesep os_name))
    (map fst data_dict ++ map (to_str float_repr) (map snd data_dict)) = true ->
  option_map csv_reader (utf8_decode bytes) =
  Some [map fst data_dict; map (to_str float_repr) (map snd data_dict)].
Proof.
  intros Hbytes H. rewrite forallb_app in H.
  unfold export_csv in Hbytes. rewrite to_csv_DataFrame in Hbytes.
  rewrite (utf8_decode_encode _ _ Hbytes). cbn [option_map].
  rewrite csv_reader_writerows; [reflexivity|].
  cbn [forallb]. now rewrite andb_true_r.
Qed.



(** ** The exports of the pages *)

Lemma plain_ascii_scalar (c : N) : plain_ascii c = true -> scalar_value c = true.
Proof.
  unfold plain_ascii, scalar_value. intros H.
  repeat (apply andb_true_iff in H; destruct H as [H _]).
  apply N.ltb_lt in H.
  replace (c <? 0xD800) with true by (symmetry; apply N.ltb_lt; lia).
  reflexivity.
Qed.

Lemma plain_ascii_not_CR (c : N) : plain_ascii c = true -> (c =? CR) = false.
Proof.
  unfold plain_ascii. intros H.
  apply andb_true_iff in H. destruct H as [H _].
  apply andb_true_iff in H. destruct H as [_ H].
  now apply negb_true_iff in H.
Qed.

Lemma plain_ascii_field (lineterminator s : str) :
  forallb plain_ascii s = true ->
  forallb scalar_value s = true /\ no_bare_cr lineterminator s = true.
Proof.
  unfold no_bare_cr. induction s as [|c s IH]; [now split|].
  cbn [forallb]. intros H. apply andb_true_iff in H. destruct H as [Hc Hs].
  destruct (IH Hs) as [IH1 IH2].
  rewrite (plain_ascii_scalar c Hc), (plain_ascii_not_CR c Hc), IH1, IH2.
  now split.
Qed.





Lemma scalar_to_csv
  (os_name : os) (float_repr : Q -> str) (data_dict : list (str * value)) :
  forallb scalar_value (to_csv os_name float_repr (DataFrame data_dict)) =
  forallb (forallb scalar_value)
    (map fst data_dict ++ map (to_str float_repr) (map snd data_dict)).
Proof.
  rewrite to_csv_DataFrame. cbn [flat_map].
  rewrite !forallb_app, !scalar_writerow_eq. cbn [forallb].
  now rewrite andb_true_r.
Qed.

Lemma export_csv_fields
  (os_name : os) (float_repr : Q -> str) (data_dict : list (str * value)) :
  let fields :=
    map fst data_dict ++ map (to_str float_repr) (map snd data_dict) in
  forallb (forallb scalar_value) fields = true ->
  forallb (no_bare_cr (linesep os_name)) fields = true ->
  exists bytes,
    export_csv os_name float_repr data_dict = Ok bytes /\
    option_map csv_reader (utf8_decode bytes) =
    Some [map fst data_dict; map (to_str float_repr) (map snd data_dict)].
Proof.
  intros fields Hs Hcr.
  assert (Hex : exists bytes, export_csv os_name float_repr data_dict = Ok bytes).
  { unfold export_csv. apply utf8_encode_scalar.
    rewrite scalar_to_csv. exact Hs. }
  destruct Hex as [bytes Hbytes]. exists bytes.
  split; [exact Hbytes|].
  now apply (export_csv_read_back os_name float_repr data_dict).
Qed.

(** The CSV of the per-unit page.  Whatever values the page computed
    and however they were rounded, the decimal strings of floats being
    plain ASCII, the export of its results returns bytes that read
    back as two rows of nine fields: the labels, two of them with a
    letter outside ASCII, and the texts of the values. *)
Theorem per_unit_results_read_back
  (os_name : os) (float_repr : Q -> str) (py_round : Q -> Z -> Q)
  (base_mva base_kv length : Q) (r : per_unit) :
  (forall x, forallb plain_ascii (float_repr x) = true) ->
  exists bytes,
    export_csv os_name float_repr
      (per_unit_results py_round base_mva base_kv length r) = Ok bytes /\
    option_map csv_reader (utf8_decode bytes) =
      Some [[text "Base MVA"; text "Base kV"; text "Length (km)";
             text "R_total (Ω)"; text "X_total (Ω)"; text "B_total (S)";
             text "R_pu"; text "X_pu"; text "B_pu"];
            [float_repr base_mva; float_repr base_kv; float_repr length;
             float_repr (py_round (R_total r) 6%Z);
             float_repr (py_round (X_total r) 6%Z);
             float_repr (py_round (B_total r) 6%Z);
             float_repr (py_round (R_pu r) 6%Z);
             float_repr (py_round (X_pu r) 6%Z);
             float_repr (py_round (B_pu r) 6%Z)]].
Proof.
  intros Hrepr.
  apply (export_csv_fields os_name float_repr
           (per_unit_results py_round base_mva base_kv length r)).
  - cbn [per_unit_results map fst snd to_str app forallb].
    rewrite !(proj1 (plain_ascii_field (linesep os_name) _ (Hrepr _))).
    vm_compute. reflexivity.
  - cbn [per_unit_results map fst snd to_str app forallb].
    rewrite !(proj2 (plain_ascii_field (linesep os_name) _ (Hrepr _))).
    destruct os_name; vm_compute; reflexivity.
Qed.

Lemma per_unit_results_read_back_witness :
  exists bytes,
    export_csv posix (fun _ => text "1.0")
      (per_unit_results round 100 13.8 10
         (per_unit_values 100 13.8 10 0.1 0.3 0.0002)) = Ok bytes.
Proof.
  destruct (per_unit_results_read_back posix (fun _ => text "1.0") round
              100 13.8 10 (per_unit_values 100 13.8 10 0.1 0.3 0.0002))
    as (bytes & Hbytes & _); [intros x; reflexivity|].
  exists bytes. exact Hbytes.
Defined.



(** * Properties of the pages on binary64 *)

Close Scope N_scope.
Import Floats.
Open Scope float_scope.
Set Warnings "-inexact-float".

(** ** Comparisons with zero *)

Lemma float_leb_0_not_ltb (h : float) : (h <=? 0) = true -> (0 <? h) = false.
Proof.
  rewrite leb_spec, ltb_spec.
  change (Prim2SF 0) with (S754_zero false).
  destruct (Prim2SF h) as [s|s| |s m e]; try destruct s; cbn; congruence.
Qed.

Section OnBinary64.

Variable libm_pow2 : float -> float.

(** [x ** 2] raises nothing but [OverflowError]. *)
Lemma pow2_raises (x : float) (e : exn) :
  Binary64.pow2 libm_pow2 x = Raise e -> e = OverflowError.
Proof.
  unfold Binary64.pow2.
  destruct (is_nan x); [discriminate|].
  destruct (is_infinity x); [discriminate|].
  destruct (x =? 0); [discriminate|].
  destruct (abs x =? 1); [discriminate|].
  destruct (is_infinity (libm_pow2 (abs x))); [|discriminate].
  congruence.
Qed.

(** ** BMI calculator *)

(** C1, as the code has it.  With [height <= 0] the guard skips the
    division: no BMI is computed and nothing is raised.  With
    [height > 0] the page evaluates [weight / height ** 2]: it raises
    [OverflowError] when the square overflows, [ZeroDivisionError]
    when the square is zero, as it is for a height that underflows,
    and returns the quotient otherwise.  For 70 kg and 1.75 m the
    BMI is 22.857142857142858, within 0.001 of 22.857. *)
Theorem bmi_guarded (weight height : float) :
  ((height <=? 0) = true ->
   Binary64.render_bmi_calculator libm_pow2 weight height = Ok None) /\
  ((0 <? height) = true ->
   (Binary64.pow2 libm_pow2 height = Raise OverflowError ->
    Binary64.render_bmi_calculator libm_pow2 weight height =
      Raise OverflowError) /\
   (forall h2,
      Binary64.pow2 libm_pow2 height = Ok h2 -> (h2 =? 0) = true ->
      Binary64.render_bmi_calculator libm_pow2 weight height =
        Raise ZeroDivisionError) /\
   (forall h2,
      Binary64.pow2 libm_pow2 height = Ok h2 -> (h2 =? 0) = false ->
      Binary64.render_bmi_calculator libm_pow2 weight height =
        Ok (Some (weight / h2)))) /\
  (libm_pow2 1.75 = 3.0625 ->
   Binary64.render_bmi_calculator libm_pow2 70 1.75 =
     Ok (Some 22.857142857142858) /\
   (abs (22.857142857142858 - 22.857) <? 0.001) = true) /\
  (libm_pow2 0x1p-600 = 0 ->
   Binary64.render_bmi_calculator libm_pow2 70 0x1p-600 =
     Raise ZeroDivisionError) /\
  (libm_pow2 0x1p+600 = infinity ->
   Binary64.render_bmi_calculator libm_pow2 70 0x1p+600 =
     Raise OverflowError).
Proof.
  split.
  { intros H. unfold Binary64.render_bmi_calculator.
    now rewrite (float_leb_0_not_ltb _ H). }
  split.
  { intros H. unfold Binary64.render_bmi_calculator. rewrite H.
    split; [|split].
    - intros ->. reflexivity.
    - intros h2 -> Hz. cbn [bind]. unfold Binary64.truediv.
      now rewrite Hz.
    - intros h2 -> Hz. cbn [bind]. unfold Binary64.truediv.
      now rewrite Hz. }
  split.
  { intros H. split; [|reflexivity].
    unfold Binary64.render_bmi_calculator, Binary64.pow2.
    change (0 <? 1.75) with true. change (is_nan 1.75) with false.
    change (is_infinity 1.75) with false. change (1.75 =? 0) with false.
    change (abs 1.75) with 1.75. change (1.75 =? 1) with false.
    cbv iota zeta. rewrite H. reflexivity. }
  split.
  { intros H.
    unfold Binary64.render_bmi_calculator, Binary64.pow2.
    change (0 <? 0x1p-600) with true. change (is_nan 0x1p-600) with false.
    change (is_infinity 0x1p-600) with false.
    change (0x1p-600 =? 0) with false.
    change (abs 0x1p-600) with 0x1p-600.
    change (0x1p-600 =? 1) with false.
    cbv iota zeta. rewrite H. reflexivity. }
  intros H.
  unfold Binary64.render_bmi_calculator, Binary64.pow2.
  change (0 <? 0x1p+600) with true. change (is_nan 0x1p+600) with false.
  change (is_infinity 0x1p+600) with false.
  change (0x1p+600 =? 0) with false.
  change (abs 0x1p+600) with 0x1p+600.
  change (0x1p+600 =? 1) with false.
  cbv iota zeta. rewrite H. reflexivity.
Qed.

End OnBinary64.

Lemma bmi_guarded_witness :
  Binary64.render_bmi_calculator Binary64.square 70 (-1.75) = Ok None /\
  Binary64.render_bmi_calculator Binary64.square 70 1.75 =
    Ok (Some 22.857142857142858) /\
  Binary64.render_bmi_calculator Binary64.square 70 0x1p-600 =
    Raise ZeroDivisionError /\
  Binary64.render_bmi_calculator Binary64.square 70 0x1p+600 =
    Raise OverflowError.
Proof.
  split.
  { apply (proj1 (bmi_guarded Binary64.square 70 (-1.75))). reflexivity. }
  split.
  { apply (proj1 (proj2 (proj2 (bmi_guarded Binary64.square 70 1.75)))).
    reflexivity. }
  split.
  { apply (proj1 (proj2 (proj2 (proj2
      (bmi_guarded Binary64.square 70 1.75))))).
    reflexivity. }
  apply (proj2 (proj2 (proj2 (proj2
    (bmi_guarded Binary64.square 70 1.75))))).
  reflexivity.
Defined.

(** C1, as the claim has it, fails at height 0, where the page raises
    nothing, and at the heights [2 ** -600] and [2 ** 600], both
    positive, where it raises instead of returning a BMI. *)
Lemma bmi_zero_height_raises_nothing :
  (0 <=? 0) = true /\
  Binary64.render_bmi_calculator Binary64.square 70 0 = Ok None /\
  ~ (exists e,
       Binary64.render_bmi_calculator Binary64.square 70 0 = Raise e) /\
  (0 <? 0x1p-600) = true /\
  Binary64.render_bmi_calculator Binary64.square 70 0x1p-600 =
    Raise ZeroDivisionError /\
  (0 <? 0x1p+600) = true /\
  Binary64.render_bmi_calculator Binary64.square 70 0x1p+600 =
    Raise OverflowError.
Proof.
  split; [reflexivity|]. split; [reflexivity|].
  split; [intros [e He]; discriminate He|].
  repeat split; reflexivity.
Qed.

(** ** Advanced per-unit calculator *)

Section PerUnitOnBinary64.

Variable libm_pow2 : float -> float.

(** C7, as the code has it.  The page raises [ZeroDivisionError] when
    [base_mva] is zero, at [Z_base], provided [base_kv ** 2] did not
    overflow; that is not its only failure point.  [base_kv ** 2]
    raises [OverflowError] when it overflows, [Y_base = 1 / Z_base]
    raises [ZeroDivisionError] when [Z_base] is zero, and
    [B_total / Y_base] raises [ZeroDivisionError] when [Y_base] is
    zero, as it is for an infinite [Z_base]; the page returns exactly
    when none of these occurs.  One input on each path is evaluated,
    among them one within the ranges of the widgets that raises with a
    nonzero [base_mva]. *)
Theorem per_unit_failure_points
  (base_mva base_kv length R_per X_per B_per : float) :
  let page :=
    Binary64.render_enhanced_per_unit libm_pow2
      base_mva base_kv length R_per X_per B_per in
  (Binary64.pow2 libm_pow2 base_kv = Raise OverflowError ->
   page = Raise OverflowError) /\
  (forall kv2,
     Binary64.pow2 libm_pow2 base_kv = Ok kv2 ->
     let zb := kv2 / base_mva in
     let yb := 1 / zb in
     ((base_mva =? 0) = true -> page = Raise ZeroDivisionError) /\
     ((base_mva =? 0) = false -> (zb =? 0) = true ->
      page = Raise ZeroDivisionError) /\
     ((base_mva =? 0) = false -> (zb =? 0) = false -> (yb =? 0) = true ->
      page = Raise ZeroDivisionError) /\
     ((base_mva =? 0) = false -> (zb =? 0) = false -> (yb =? 0) = false ->
      page =
        Ok {| Binary64.Z_base := zb; Binary64.Y_base := yb;
              Binary64.R_total := R_per * length;
              Binary64.X_total := X_per * length;
              Binary64.B_total := B_per * length;
              Binary64.R_pu := R_per * length / zb;
              Binary64.X_pu := X_per * length / zb;
              Binary64.B_pu := B_per * length / yb |})) /\
  (libm_pow2 2 = 4 ->
   Binary64.render_enhanced_per_unit libm_pow2 0 2 10 0.1 0.3 0.0002 =
     Raise ZeroDivisionError) /\
  Binary64.render_enhanced_per_unit libm_pow2 100 0 10 0.1 0.3 0.0002 =
    Raise ZeroDivisionError /\
  (libm_pow2 0x1p+511 = 0x1p+1022 ->
   Binary64.per_unit_widgets 0.1 0x1p+511 10 = true /\
   Binary64.render_enhanced_per_unit libm_pow2
     0.1 0x1p+511 10 0.1 0.3 0.0002 = Raise ZeroDivisionError) /\
  (libm_pow2 0x1p+600 = infinity ->
   Binary64.per_unit_widgets 100 0x1p+600 10 = true /\
   Binary64.render_enhanced_per_unit libm_pow2
     100 0x1p+600 10 0.1 0.3 0.0002 = Raise OverflowError) /\
  (libm_pow2 16 = 256 ->
   exists r,
     Binary64.render_enhanced_per_unit libm_pow2
       100 16 10 0.1 0.3 0.0002 = Ok r /\
     Binary64.Z_base r = 2.56).
Proof.
  intros page. split.
  { intros H. unfold page, Binary64.render_enhanced_per_unit.
    now rewrite H. }
  split.
  { intros kv2 Hkv zb yb. subst yb zb.
    unfold page, Binary64.render_enhanced_per_unit, Binary64.truediv.
    rewrite Hkv. cbn [bind].
    split; [intros Hm; now rewrite Hm|].
    split; [intros Hm Hz; rewrite Hm; cbn [bind]; now rewrite Hz|].
    split.
    - intros Hm Hz Hy. rewrite Hm. cbn [bind]. rewrite Hz. cbn [bind].
      now rewrite Hy.
    - intros Hm Hz Hy. rewrite Hm. cbn [bind]. rewrite Hz. cbn [bind].
      now rewrite Hy. }
  split.
  { intros H. unfold Binary64.render_enhanced_per_unit, Binary64.pow2.
    change (is_nan 2) with false. change (is_infinity 2) with false.
    change (2 =? 0) with false. change (abs 2) with 2.
    change (2 =? 1) with false. cbv iota zeta. rewrite H. reflexivity. }
  split; [reflexivity|].
  split.
  { intros H. split; [reflexivity|].
    unfold Binary64.render_enhanced_per_unit, Binary64.pow2.
    change (is_nan 0x1p+511) with false.
    change (is_infinity 0x1p+511) with false.
    change (0x1p+511 =? 0) with false. change (abs 0x1p+511) with 0x1p+511.
    change (0x1p+511 =? 1) with false. cbv iota zeta. rewrite H.
    reflexivity. }
  split.
  { intros H. split; [reflexivity|].
    unfold Binary64.render_enhanced_per_unit, Binary64.pow2.
    change (is_nan 0x1p+600) with false.
    change (is_infinity 0x1p+600) with false.
    change (0x1p+600 =? 0) with false. change (abs 0x1p+600) with 0x1p+600.
    change (0x1p+600 =? 1) with false. cbv iota zeta. rewrite H.
    reflexivity. }
  intros H. eexists.
  unfold Binary64.render_enhanced_per_unit, Binary64.pow2.
  change (is_nan 16) with false. change (is_infinity 16) with false.
  change (16 =? 0) with false. change (abs 16) with 16.
  change (16 =? 1) with false. cbv iota zeta. rewrite H.
  split; reflexivity.
Qed.

End PerUnitOnBinary64.

Lemma per_unit_failure_points_witness :
  Binary64.render_enhanced_per_unit Binary64.square 0 2 10 0.1 0.3 0.0002 =
    Raise ZeroDivisionError /\
  Binary64.render_enhanced_per_unit Binary64.square
    0.1 0x1p+511 10 0.1 0.3 0.0002 = Raise ZeroDivisionError /\
  Binary64.render_enhanced_per_unit Binary64.square
    100 0x1p+600 10 0.1 0.3 0.0002 = Raise OverflowError /\
  exists r,
    Binary64.render_enhanced_per_unit Binary64.square
      100 16 10 0.1 0.3 0.0002 = Ok r /\
    Binary64.Z_base r = 2.56.
Proof.
  pose proof (per_unit_failure_points Binary64.square
                100 16 10 0.1 0.3 0.0002) as H.
  cbv zeta in H.
  destruct H as (_ & _ & Hmva & _ & Hy & Hover & Hok).
  split; [apply Hmva; reflexivity|].
  split; [apply Hy; reflexivity|].
  split; [apply Hover; reflexivity|].
  apply Hok. reflexivity.
Defined.

(** C7, as the claim has it, fails at [base_mva = 0.1] and
    [base_kv = 2 ** 511], both within the ranges of the widgets:
    [base_mva] is not zero and [Z_base] is computed, an infinity, but
    the page raises, at [B_total / Y_base]. *)
Lemma per_unit_admitted_input_raises :
  Binary64.per_unit_widgets 0.1 0x1p+511 10 = true /\
  (0.1 =? 0) = false /\
  Binary64.pow2 Binary64.square 0x1p+511 = Ok 0x1p+1022 /\
  Binary64.truediv 0x1p+1022 0.1 = Ok infinity /\
  Binary64.truediv 1 infinity = Ok 0 /\
  Binary64.render_enhanced_per_unit Binary64.square
    0.1 0x1p+511 10 0.1 0.3 0.0002 = Raise ZeroDivisionError /\
  ~ (exists r,
       Binary64.render_enhanced_per_unit Binary64.square
         0.1 0x1p+511 10 0.1 0.3 0.0002 = Ok r).
Proof.
  do 6 (split; [reflexivity|]).
  intros [r Hr]. discriminate Hr.
Qed.
